(** * validate_docs_naming: the documentation file-name checker

    A shallow embedding of [scripts/validate_docs_naming.py] and the
    properties of its naming predicate and of its scanning loop.

    A Python [str] is modelled by [string]: a file name is the sequence of
    its UTF-8 bytes.  Every element of the naming pattern is an ASCII
    character or a range of ASCII letters, and no byte of a multi-byte UTF-8
    sequence is below 128, so matching over bytes and matching over code
    points agree on every name; equality of names is equality of their
    bytes. *)

From Stdlib Require Import String Ascii List Bool Arith Lia ZArith DecimalString.
From Stdlib Require Import Permutation.
Import ListNotations.

Local Open Scope string_scope.
Local Open Scope list_scope.

(** Concatenation of strings, Python's [+] on [str]. *)
Infix "+++" := String.append (at level 60, right associativity).

(** The line feed, written ["\n"] in Python. *)
Definition LF : ascii := "010"%char.

(* ===================================================================== *)
(** * Regular expressions: the fragment of [re] the pattern uses         *)
(* ===================================================================== *)

Module Re.

(** Syntax tree of a pattern.  [Caret] is [^], [Dollar] is [$], [Class]
    is a bracketed set given by its ranges, [Group] is a parenthesised
    sub-pattern, [Plus] is the postfix [+]. *)
Inductive regex : Type :=
| Eps
| Caret
| Dollar
| Char (c : ascii)
| Class (ranges : list (ascii * ascii))
| Seq (r1 r2 : regex)
| Alt (r1 r2 : regex)
| Group (r : regex)
| Plus (r : regex).

(** ** Parsing a pattern string *)

Definition is_special (c : ascii) : bool :=
  existsb (Ascii.eqb c)
    ["."; "^"; "$"; "*"; "+"; "?"; "{"; "}"; "["; "]"; "\"; "|"; "("; ")"]%char.

Definition is_alnum (c : ascii) : bool :=
  let n := nat_of_ascii c in
  (((48 <=? n) && (n <=? 57)) || ((65 <=? n) && (n <=? 90))
   || ((97 <=? n) && (n <=? 122)))%nat.

(** The inside of a bracketed set, after the opening bracket: single
    characters and [lo-hi] ranges up to the closing bracket. *)
Fixpoint parse_class (s : string) : option (list (ascii * ascii) * string) :=
  match s with
  | EmptyString => None
  | String a t =>
      if Ascii.eqb a "]" then Some ([], t)
      else if Ascii.eqb a "\" || Ascii.eqb a "[" then None
      else
        match t with
        | String d (String b u) =>
            if Ascii.eqb d "-" && negb (Ascii.eqb b "]") then
              match parse_class u with
              | Some (rs, v) => Some ((a, b) :: rs, v)
              | None => None
              end
            else
              match parse_class t with
              | Some (rs, v) => Some ((a, a) :: rs, v)
              | None => None
              end
        | _ =>
            match parse_class t with
            | Some (rs, v) => Some ((a, a) :: rs, v)
            | None => None
            end
        end
  end.

(** Recursive descent over alternatives, sequences and atoms.  A pattern
    that uses a construct outside the fragment is refused ([None]). *)
Fixpoint parse_alt (fuel : nat) (s : string) : option (regex * string) :=
  match fuel with
  | O => None
  | S n =>
      match parse_seq n s with
      | Some (r, String c t) =>
          if Ascii.eqb c "|" then
            match parse_alt n t with
            | Some (r', u) => Some (Alt r r', u)
            | None => None
            end
          else Some (r, String c t)
      | other => other
      end
  end
with parse_seq (fuel : nat) (s : string) : option (regex * string) :=
  match fuel with
  | O => None
  | S n =>
      match s with
      | EmptyString => Some (Eps, s)
      | String c _ =>
          if Ascii.eqb c "|" || Ascii.eqb c ")" then Some (Eps, s)
          else
            match parse_atom n s with
            | Some (a, t) =>
                let '(a', t') :=
                  match t with
                  | String p u => if Ascii.eqb p "+" then (Plus a, u) else (a, t)
                  | EmptyString => (a, t)
                  end in
                match parse_seq n t' with
                | Some (r, u) => Some (Seq a' r, u)
                | None => None
                end
            | None => None
            end
      end
  end
with parse_atom (fuel : nat) (s : string) : option (regex * string) :=
  match fuel with
  | O => None
  | S n =>
      match s with
      | EmptyString => None
      | String c t =>
          if Ascii.eqb c "^" then Some (Caret, t)
          else if Ascii.eqb c "$" then Some (Dollar, t)
          else if Ascii.eqb c "(" then
            match parse_alt n t with
            | Some (r, String d u) =>
                if Ascii.eqb d ")" then Some (Group r, u) else None
            | _ => None
            end
          else if Ascii.eqb c "[" then
            match parse_class t with
            | Some (rs, u) => Some (Class rs, u)
            | None => None
            end
          else if Ascii.eqb c "\" then
            match t with
            | String e u => if is_alnum e then None else Some (Char e, u)
            | EmptyString => None
            end
          else if is_special c then None
          else Some (Char c, t)
      end
  end.

Definition compile (p : string) : option regex :=
  match parse_alt (3 * String.length p + 3)%nat p with
  | Some (r, EmptyString) => Some r
  | _ => None
  end.

(** ** Matching *)

(** A position in the subject string: the number of characters already
    consumed and the characters still ahead. *)
Record cursor : Type := Cursor { pos : nat; rest : string }.

Definition start (s : string) : cursor := Cursor 0 s.

Definition in_class (rs : list (ascii * ascii)) (c : ascii) : bool :=
  existsb (fun r => ((nat_of_ascii (fst r) <=? nat_of_ascii c)
                     && (nat_of_ascii c <=? nat_of_ascii (snd r)))%nat) rs.

(** [$] without the MULTILINE flag: at the end of the string, or just
    before a line feed that is the last character of the string. *)
Definition at_end (s : string) : bool :=
  match s with
  | EmptyString => true
  | String c EmptyString => Ascii.eqb c LF
  | _ => false
  end.

Definition eat (ok : ascii -> bool) (c : cursor) : list cursor :=
  match rest c with
  | String a t => if ok a then [Cursor (S (pos c)) t] else []
  | EmptyString => []
  end.

(** One or more repetitions of [body], the longest first.  Every round of
    a body that consumes input shortens what is ahead, so a number of
    rounds above the length of the remaining input is never reached. *)
Fixpoint repeat1 (body : cursor -> list cursor) (fuel : nat) (c : cursor)
  : list cursor :=
  match fuel with
  | O => []
  | S n => flat_map (fun c' => repeat1 body n c' ++ [c']) (body c)
  end.

(** All the positions where a match of [r] begun at [c] can end, in the
    order a backtracking matcher tries them. *)
Fixpoint run (r : regex) (c : cursor) : list cursor :=
  match r with
  | Eps => [c]
  | Caret => if Nat.eqb (pos c) 0 then [c] else []
  | Dollar => if at_end (rest c) then [c] else []
  | Char a => eat (Ascii.eqb a) c
  | Class rs => eat (in_class rs) c
  | Seq r1 r2 => flat_map (run r2) (run r1 c)
  | Alt r1 r2 => run r1 c ++ run r2 c
  | Group r1 => run r1 c
  | Plus r1 => repeat1 (run r1) (S (String.length (rest c))) c
  end.

(** [re.match(pattern, string)]: a match anchored at the start of the
    string only; the result is the end of the first match found, [None]
    when there is none (or when the pattern is outside the fragment). *)
Definition re_match (p : string) (s : string) : option cursor :=
  match compile p with
  | Some r => hd_error (run r (start s))
  | None => None
  end.

(** ** Words read between two positions *)

(** [consumes c w c']: going from [c] to [c'] reads exactly the word [w]. *)
Definition consumes (c : cursor) (w : string) (c' : cursor) : Prop :=
  rest c = w +++ rest c' /\ pos c' = pos c + String.length w.

(** The pattern that matches the characters of [s] and then [r]. *)
Fixpoint lit_then (s : string) (r : regex) : regex :=
  match s with
  | EmptyString => r
  | String a t => Seq (Char a) (lit_then t r)
  end.

End Re.

(** Python's [bool] on the result of [re.match]: a match object is truthy,
    [None] is falsy. *)
Definition bool_of_match (m : option Re.cursor) : bool :=
  match m with Some _ => true | None => false end.

(* ===================================================================== *)
(** * The script's constants and [validate_filename]                     *)
(* ===================================================================== *)

Definition pattern : string :=
  "^(META|ARCH|SPEC|IMPL|QA)-[A-Za-z]+-[A-Za-z]+\.md$".

Definition redirect_files : list string :=
  [ "00-document-meta.md";
    "01-core-principles.md";
    "02-system-architecture.md";
    "02b-state-machine-specification.md";
    "03-contracts.md";
    "04-testing-architecture.md";
    "05-implementation-plan.md";
    "06-json-example.md";
    "文档导航.md";
    "模块化说明方案.md" ].

Definition validate_filename (name : string) : bool :=
  bool_of_match (Re.re_match pattern name).

(** The set of ASCII letters, [[A-Za-z]]. *)
Definition letter_class : Re.regex := Re.Class [("A", "Z"); ("a", "z")]%char.

(** The group of the five tags, [(META|ARCH|SPEC|IMPL|QA)]. *)
Definition tags_regex : Re.regex :=
  Re.Group
    (Re.Alt (Re.lit_then "META" Re.Eps)
    (Re.Alt (Re.lit_then "ARCH" Re.Eps)
    (Re.Alt (Re.lit_then "SPEC" Re.Eps)
    (Re.Alt (Re.lit_then "IMPL" Re.Eps)
            (Re.lit_then "QA" Re.Eps))))).

(** The syntax tree of [pattern], as [Re.compile] builds it. *)
Definition pattern_ast : Re.regex :=
  Re.Seq Re.Caret
    (Re.Seq tags_regex
    (Re.Seq (Re.Char "-")
    (Re.Seq (Re.Plus letter_class)
    (Re.Seq (Re.Char "-")
    (Re.Seq (Re.Plus letter_class)
    (Re.Seq (Re.Char ".")
    (Re.Seq (Re.Char "m")
    (Re.Seq (Re.Char "d")
    (Re.Seq Re.Dollar Re.Eps))))))))).

(* ===================================================================== *)
(** * The run: file system, output, local variables, termination         *)
(* ===================================================================== *)

(** A child of the docs directory as [os.listdir] names it, with the answer
    of [os.path.isdir] on its path. *)
Record dirent : Type := Dirent { d_name : string; d_is_dir : bool }.

(** What the file system holds at the docs path: nothing; something that
    is not a directory; a directory that [os.listdir] lists; a directory
    that exists and that [os.listdir] cannot list (the process may not read
    it). *)
Inductive node : Type :=
| Absent
| RegularFile
| Directory (children : list dirent)
| UnlistableDirectory.

Record world : Type := World { docs_dir : string; docs_node : node }.

(** The exceptions a run can end with: [sys.exit(code)] raises
    [SystemExit]; [os.listdir] on a path that is not a directory raises
    [NotADirectoryError], on a path that does not exist
    [FileNotFoundError], and on a directory it cannot read
    [PermissionError]. *)
Inductive exn : Type :=
| SystemExit (code : Z)
| NotADirectoryError
| FileNotFoundError
| PermissionError.

(** Standard output (one entry per [print] call) and the local variables
    of [main]. *)
Record state : Type := State {
  stdout : list string;
  total_files : nat;
  valid_files : nat;
  invalid_files : list string
}.

(** Computations of [main]: they thread the state and may raise. *)
Definition M (A : Type) : Type := state -> state * (exn + A).

Definition ret {A : Type} (a : A) : M A := fun st => (st, inr a).

Definition bind {A B : Type} (m : M A) (k : A -> M B) : M B :=
  fun st =>
    match m st with
    | (st', inr a) => k a st'
    | (st', inl e) => (st', inl e)
    end.

Definition raise {A : Type} (e : exn) : M A := fun st => (st, inl e).

Declare Scope run_scope.
Delimit Scope run_scope with run.
Notation "x <- m ;; k" := (bind m (fun x => k))
  (at level 61, m at next level, right associativity) : run_scope.
Notation "m ;; k" := (bind m (fun _ => k))
  (at level 61, right associativity) : run_scope.

Definition print (line : string) : M unit :=
  fun st => (State (stdout st ++ [line]) (total_files st) (valid_files st)
                   (invalid_files st), inr tt).

Definition sys_exit (code : Z) : M unit := raise (SystemExit code).

(** The assignments [total_files = 0], [valid_files = 0] and
    [invalid_files = []]. *)
Definition init_locals : M unit :=
  fun st => (State (stdout st) 0 0 [], inr tt).

Definition incr_total_files : M unit :=
  fun st => (State (stdout st) (total_files st + 1) (valid_files st)
                   (invalid_files st), inr tt).

Definition incr_valid_files : M unit :=
  fun st => (State (stdout st) (total_files st) (valid_files st + 1)
                   (invalid_files st), inr tt).

Definition invalid_files_append (name : string) : M unit :=
  fun st => (State (stdout st) (total_files st) (valid_files st)
                   (invalid_files st ++ [name]), inr tt).

Definition get {A : Type} (field : state -> A) : M A :=
  fun st => (st, inr (field st)).

Definition os_path_exists (w : world) : bool :=
  match docs_node w with
  | Absent => false
  | RegularFile | Directory _ | UnlistableDirectory => true
  end.

Definition os_listdir (w : world) : M (list dirent) :=
  match docs_node w with
  | Directory children => ret children
  | RegularFile => raise NotADirectoryError
  | Absent => raise FileNotFoundError
  | UnlistableDirectory => raise PermissionError
  end.

(** [x in xs] on a list of strings. *)
Definition mem (x : string) (xs : list string) : bool :=
  existsb (String.eqb x) xs.

(** [str(n)] for a non-negative integer. *)
Definition str (n : nat) : string := NilEmpty.string_of_uint (Nat.to_uint n).

Fixpoint for_each {A : Type} (xs : list A) (body : A -> M unit) : M unit :=
  match xs with
  | [] => ret tt
  | x :: xs' => (body x ;; for_each xs' body)%run
  end.

(** The body of the loop of [main], for one child. *)
Definition scan_child (child : dirent) : M unit :=
  (if d_is_dir child then ret tt
   else
     incr_total_files ;;
     if mem (d_name child) redirect_files then
       print ("跳过重定向文件: " +++ d_name child)
     else if validate_filename (d_name child) then
       incr_valid_files ;;
       print ("✓ 有效: " +++ d_name child)
     else
       invalid_files_append (d_name child) ;;
       print ("✗ 无效: " +++ d_name child))%run.

Definition main (w : world) : M unit :=
  (print "开始验证文档文件名规范..." ;;
   print ("文档目录: " +++ docs_dir w) ;;
   print ("验证模式: " +++ pattern) ;;
   init_locals ;;
   (if negb (os_path_exists w) then
      print ("错误: 文档目录 " +++ docs_dir w +++ " 不存在") ;;
      sys_exit 1
    else ret tt) ;;
   children <- os_listdir w ;;
   for_each children scan_child ;;
   print (String LF "验证结果:") ;;
   total <- get total_files ;;
   print ("总文件数: " +++ str total) ;;
   valid <- get valid_files ;;
   print ("有效文件数: " +++ str valid) ;;
   invalid <- get invalid_files ;;
   print ("无效文件数: " +++ str (List.length invalid)) ;;
   if match invalid with [] => false | _ :: _ => true end then
     print (String LF "无效文件列表:") ;;
     for_each invalid (fun filename => print ("- " +++ filename)) ;;
     print (String LF "错误: 发现不符合命名规范的文件") ;;
     sys_exit 1
   else
     print (String LF "成功: 所有文件都符合命名规范") ;;
     sys_exit 0)%run.

(** The state [main] starts from: nothing printed, and the locals not yet
    assigned (their fields hold the values [init_locals] gives them). *)
Definition initial : state := State [] 0 0 [].

(** A whole run of the script. *)
Definition run_script (w : world) : state * (exn + unit) := main w initial.

(** The exit status of the process: the code given to [sys.exit]; [1] when
    the interpreter ends on any other uncaught exception; [0] when the
    script runs to its end. *)
Definition exit_status (r : exn + unit) : Z :=
  match r with
  | inl (SystemExit code) => code
  | inl NotADirectoryError | inl FileNotFoundError | inl PermissionError =>
      1%Z
  | inr _ => 0%Z
  end.

(* ===================================================================== *)
(** * The naming convention in the words of the specification            *)
(* ===================================================================== *)

Fixpoint all_chars (ok : ascii -> bool) (s : string) : bool :=
  match s with
  | EmptyString => true
  | String a t => ok a && all_chars ok t
  end.

Module Spec.

(** The five category tags. *)
Definition tags : list string := ["META"; "ARCH"; "SPEC"; "IMPL"; "QA"].

(** An ASCII letter: [A]..[Z] or [a]..[z]. *)
Definition ascii_letter (c : ascii) : bool :=
  let n := nat_of_ascii c in
  (((65 <=? n) && (n <=? 90)) || ((97 <=? n) && (n <=? 122)))%nat.

(** A run of one or more ASCII letters. *)
Definition letters (s : string) : Prop :=
  s <> "" /\ all_chars ascii_letter s = true.

(** The whole name is a tag, a hyphen, letters, a hyphen, letters and the
    suffix [.md], with nothing before and nothing after. *)
Definition naming_pattern (name : string) : Prop :=
  exists tag a b,
    In tag tags /\ letters a /\ letters b /\
    name = tag +++ "-" +++ a +++ "-" +++ b +++ ".md".

End Spec.

(* ===================================================================== *)
(** * The classes of a child and the lines of a run                      *)
(* ===================================================================== *)

(** The children the scan looks at, in listing order; none when the docs
    path holds no directory, or one that cannot be listed. *)
Definition listing (w : world) : list dirent :=
  match docs_node w with
  | Directory children => children
  | Absent | RegularFile | UnlistableDirectory => []
  end.

(** [os.listdir] raises on the docs path: something is there and it is not
    a directory that can be listed. *)
Definition listing_fails (w : world) : bool :=
  match docs_node w with
  | RegularFile | UnlistableDirectory => true
  | Absent | Directory _ => false
  end.

(** The four classes of a child. *)
Definition is_file (e : dirent) : bool := negb (d_is_dir e).

Definition is_exempt (e : dirent) : bool :=
  is_file e && mem (d_name e) redirect_files.

Definition is_valid (e : dirent) : bool :=
  is_file e && negb (mem (d_name e) redirect_files)
  && validate_filename (d_name e).

Definition is_invalid (e : dirent) : bool :=
  is_file e && negb (mem (d_name e) redirect_files)
  && negb (validate_filename (d_name e)).

Definition count {A : Type} (p : A -> bool) (l : list A) : nat :=
  List.length (filter p l).

(** The line the loop prints for a child; a directory gets none. *)
Definition report (e : dirent) : list string :=
  if d_is_dir e then []
  else if mem (d_name e) redirect_files then
    ["跳过重定向文件: " +++ d_name e]
  else if validate_filename (d_name e) then ["✓ 有效: " +++ d_name e]
  else ["✗ 无效: " +++ d_name e].

(** The lines a run prints around the scan. *)
Definition header (d : string) : list string :=
  ["开始验证文档文件名规范..."; "文档目录: " +++ d; "验证模式: " +++ pattern].

Definition missing_directory_message (d : string) : string :=
  "错误: 文档目录 " +++ d +++ " 不存在".

Definition summary (total valid invalid : nat) : list string :=
  [String LF "验证结果:"; "总文件数: " +++ str total;
   "有效文件数: " +++ str valid; "无效文件数: " +++ str invalid].

Definition verdict (invalid : list string) : list string :=
  match invalid with
  | [] => [String LF "成功: 所有文件都符合命名规范"]
  | _ :: _ =>
      String LF "无效文件列表:" :: map (String.append "- ") invalid
      ++ [String LF "错误: 发现不符合命名规范的文件"]
  end.

(** The characters a name of the convention is made of: ASCII letters,
    the hyphen and the dot; [$] lets a line feed follow them. *)
Definition name_char (c : ascii) : bool :=
  Spec.ascii_letter c || Ascii.eqb c "-" || Ascii.eqb c "." || Ascii.eqb c LF.

(** The last character of a string. *)
Fixpoint last_char (s : string) : option ascii :=
  match s with
  | EmptyString => None
  | String a EmptyString => Some a
  | String _ t => last_char t
  end.

(** The characters a run writes to standard output: each [print] writes
    its argument and then a line feed. *)
Fixpoint written (lines : list string) : string :=
  match lines with
  | [] => EmptyString
  | line :: more => line +++ String LF (written more)
  end.

Definition output (st : state) : string := written (stdout st).

(** [s.endswith(t)]. *)
Definition ends_with (s t : string) : Prop := exists p, s = p +++ t.

(** The last two characters of a string. *)
Fixpoint last_two (s : string) : option (ascii * ascii) :=
  match s with
  | EmptyString => None
  | String a t =>
      match t with
      | EmptyString => None
      | String b EmptyString => Some (a, b)
      | String _ (String _ _) => last_two t
      end
  end.

(* ===================================================================== *)
(** * The docs path                                                      *)
(* ===================================================================== *)

(** The functions of [os.path] that the script uses to build [docs_dir],
    as [posixpath] defines them, on paths with the separator [/]. *)
Module PosixPath.

Definition sep : ascii := "/"%char.

Definition has_sep (p : string) : bool :=
  negb (all_chars (fun c => negb (Ascii.eqb c sep)) p).

Definition ends_with_sep (p : string) : bool :=
  match last_char p with
  | Some c => Ascii.eqb c sep
  | None => false
  end.

Definition starts_with_sep (p : string) : bool :=
  match p with
  | String c _ => Ascii.eqb c sep
  | EmptyString => false
  end.

(** [p[:p.rfind(sep) + 1]]: the characters of [p] up to its last
    separator, that separator included; nothing when [p] has none. *)
Fixpoint through_last_sep (p : string) : string :=
  match p with
  | EmptyString => EmptyString
  | String c t =>
      if has_sep t then String c (through_last_sep t)
      else if Ascii.eqb c sep then String c EmptyString
      else EmptyString
  end.

(** [s.rstrip(sep)]: [s] without its trailing separators. *)
Fixpoint rstrip (s : string) : string :=
  match s with
  | EmptyString => EmptyString
  | String c t =>
      match rstrip t with
      | EmptyString => if Ascii.eqb c sep then EmptyString else String c EmptyString
      | String _ _ as t' => String c t'
      end
  end.

(** [os.path.dirname]: the head is stripped of its trailing separators
    unless it is empty or made of separators only. *)
Definition dirname (p : string) : string :=
  let head := through_last_sep p in
  if negb (String.eqb head "") && negb (all_chars (Ascii.eqb sep) head)
  then rstrip head
  else head.

(** [os.path.join(a, b)]. *)
Definition join (a b : string) : string :=
  if starts_with_sep b then b
  else if String.eqb a "" || ends_with_sep a then a +++ b
  else a +++ String sep b.

End PosixPath.

(** The global [docs_dir], from [os.path.abspath(__file__)], the absolute
    path of the script. *)
Definition docs_dir_of (script : string) : string :=
  PosixPath.join (PosixPath.dirname (PosixPath.dirname script)) "docs".

(* ===================================================================== *)
(** * Strings                                                            *)
(* ===================================================================== *)

Lemma append_assoc (a b c : string) : (a +++ b) +++ c = a +++ b +++ c.
Proof. induction a as [|x a IH]; simpl; [reflexivity | now rewrite IH]. Qed.

Lemma append_nil_r (a : string) : a +++ "" = a.
Proof. induction a as [|x a IH]; simpl; [reflexivity | now rewrite IH]. Qed.

Lemma length_append (a b : string) :
  String.length (a +++ b) = String.length a + String.length b.
Proof. induction a as [|x a IH]; simpl; [reflexivity | now rewrite IH]. Qed.

Lemma last_char_append (a b : string) :
  b <> "" -> last_char (a +++ b) = last_char b.
Proof.
  intros Hb. induction a as [|x a IH]; simpl; [reflexivity|].
  rewrite IH. destruct (a +++ b) eqn:E; [|reflexivity].
  destruct a; simpl in E; [congruence | discriminate].
Qed.

(* ===================================================================== *)
(** * What the matcher accepts                                           *)
(* ===================================================================== *)

Module ReFacts.
Import Re.

Lemma consumes_nil c : consumes c "" c.
Proof. split; simpl; [reflexivity | lia]. Qed.

Lemma consumes_trans c w m v c' :
  consumes c w m -> consumes m v c' -> consumes c (w +++ v) c'.
Proof.
  intros [R1 P1] [R2 P2]. split.
  - rewrite R1, R2. now rewrite append_assoc.
  - rewrite P2, P1, length_append. lia.
Qed.

Lemma consumes_nil_inv c c' : consumes c "" c' -> c' = c.
Proof.
  destruct c as [p s], c' as [p' s']. intros [R P]. simpl in *.
  f_equal; [lia | congruence].
Qed.

Lemma in_eat ok c c' :
  In c' (eat ok c) <->
  exists a, ok a = true /\ consumes c (String a "") c'.
Proof.
  unfold eat, consumes. destruct c as [p s], c' as [p' s']. simpl.
  split.
  - destruct s as [|a t]; simpl; [tauto|].
    destruct (ok a) eqn:E; simpl; [|tauto].
    intros [H|[]]. injection H as <- <-. exists a. repeat split; trivial. lia.
  - intros (a & Ha & R & P). subst s. rewrite Ha. left. f_equal. lia.
Qed.

Lemma in_run_seq r1 r2 c c' :
  In c' (run (Seq r1 r2) c) <-> exists m, In m (run r1 c) /\ In c' (run r2 m).
Proof. simpl. apply in_flat_map. Qed.

Lemma in_run_char a c c' :
  In c' (run (Char a) c) <-> consumes c (String a "") c'.
Proof.
  simpl. rewrite in_eat. split.
  - intros (b & Hb & H). apply Ascii.eqb_eq in Hb. now subst b.
  - intros H. exists a. split; [apply Ascii.eqb_refl | exact H].
Qed.

Lemma in_run_lit_then s r c c' :
  In c' (run (lit_then s r) c) <->
  exists m, consumes c s m /\ In c' (run r m).
Proof.
  revert c. induction s as [|a t IH]; intros c.
  - simpl. split.
    + intros H. exists c. split; [apply consumes_nil | exact H].
    + intros (m & Hm & H). apply consumes_nil_inv in Hm. now subst m.
  - change (lit_then (String a t) r) with (Seq (Char a) (lit_then t r)).
    rewrite in_run_seq. split.
    + intros (m & H1 & H2). apply in_run_char in H1. apply IH in H2.
      destruct H2 as (m' & H2 & H3). exists m'. split; [|exact H3].
      apply (consumes_trans _ _ _ _ _ H1 H2).
    + intros (m' & [R P] & H3). simpl in R, P.
      exists (Cursor (S (pos c)) (t +++ rest m')). split.
      * apply in_run_char. split; simpl; [exact R | lia].
      * apply IH. exists m'. split; [|exact H3].
        split; simpl; [reflexivity | lia].
Qed.

(** One or more rounds of a single-character test read a non-empty word
    of characters that pass it; fuel above the length of the remaining
    input is enough for every such word. *)
Lemma in_repeat1_eat_sound ok fuel c c' :
  In c' (repeat1 (eat ok) fuel c) ->
  exists w, w <> "" /\ all_chars ok w = true /\ consumes c w c'.
Proof.
  revert c. induction fuel as [|n IH]; intros c; simpl; [tauto|].
  rewrite in_flat_map. intros (m & Hm & H).
  apply in_eat in Hm. destruct Hm as (a & Ha & Hc).
  apply in_app_or in H. destruct H as [H|[H|[]]].
  - destruct (IH _ H) as (w & _ & Hw & Hcw).
    exists (String a w). split; [discriminate|]. split.
    + simpl. now rewrite Ha, Hw.
    + apply (consumes_trans _ _ _ _ _ Hc Hcw).
  - subst m. exists (String a ""). split; [discriminate|]. split.
    + simpl. now rewrite Ha.
    + exact Hc.
Qed.

Lemma in_repeat1_eat_complete ok fuel c w c' :
  String.length (rest c) < fuel ->
  w <> "" -> all_chars ok w = true -> consumes c w c' ->
  In c' (repeat1 (eat ok) fuel c).
Proof.
  revert c w. induction fuel as [|n IH]; intros c w Hf Hw Hok Hc; [lia|].
  destruct w as [|a w]; [congruence|].
  simpl in Hok. apply andb_true_iff in Hok. destruct Hok as [Ha Hok].
  destruct Hc as [R P]. simpl in R, P.
  simpl. apply in_flat_map.
  exists (Cursor (S (pos c)) (w +++ rest c')). split.
  - apply in_eat. exists a. split; [exact Ha|].
    split; simpl; [exact R | lia].
  - apply in_or_app. destruct w as [|b w].
    + right. left. destruct c' as [p' s']. simpl in *. f_equal. lia.
    + left. apply (IH _ (String b w)).
      * rewrite R in Hf. simpl in Hf. simpl. lia.
      * discriminate.
      * exact Hok.
      * split; simpl; [reflexivity|]. simpl in P. lia.
Qed.

Lemma in_run_plus_class rs c c' :
  In c' (run (Plus (Class rs)) c) <->
  exists w, w <> "" /\ all_chars (in_class rs) w = true /\ consumes c w c'.
Proof.
  change (run (Plus (Class rs)) c)
    with (repeat1 (eat (in_class rs)) (S (String.length (rest c))) c).
  split.
  - apply in_repeat1_eat_sound.
  - intros (w & Hw & Hok & Hc).
    apply (in_repeat1_eat_complete _ _ _ w); trivial. lia.
Qed.

Lemma bool_of_match_hd (l : list cursor) :
  bool_of_match (hd_error l) = true <-> exists c', In c' l.
Proof.
  destruct l as [|c l]; simpl; split.
  - discriminate.
  - intros [c' []].
  - intros _. exists c. now left.
  - reflexivity.
Qed.

Lemma at_end_iff s : at_end s = true <-> s = "" \/ s = String LF "".
Proof.
  destruct s as [|a [|b t]]; simpl; split; intros H.
  - now left.
  - reflexivity.
  - apply Ascii.eqb_eq in H. subst a. now right.
  - destruct H as [H|H]; [discriminate|]. injection H as ->. apply Ascii.eqb_refl.
  - discriminate.
  - destruct H as [H|H]; discriminate.
Qed.

Lemma consumes_split c w v c' :
  consumes c (w +++ v) c' ->
  exists m, consumes c w m /\ consumes m v c'.
Proof.
  intros [R P]. exists (Cursor (pos c + String.length w) (v +++ rest c')).
  split; split; simpl.
  - now rewrite R, append_assoc.
  - reflexivity.
  - reflexivity.
  - rewrite P, length_append. lia.
Qed.

Lemma in_run_lit s c c' :
  In c' (run (lit_then s Eps) c) <-> consumes c s c'.
Proof.
  rewrite in_run_lit_then. split.
  - intros (m & Hm & [H|[]]). now subst m.
  - intros H. exists c'. split; [exact H | now left].
Qed.

Lemma in_run_caret c c' : In c' (run Caret c) <-> c' = c /\ pos c = 0.
Proof.
  simpl. destruct (Nat.eqb_spec (pos c) 0) as [E|E]; simpl.
  - split; [intros [H|[]]; now split | intros [H _]; now left].
  - split; [tauto | intros [_ H]; contradiction].
Qed.

Lemma in_run_dollar c c' :
  In c' (run Dollar c) <-> c' = c /\ at_end (rest c) = true.
Proof.
  simpl. destruct (at_end (rest c)); simpl.
  - split; [intros [H|[]]; now split | intros [H _]; now left].
  - split; [tauto | intros [_ H]; discriminate].
Qed.

Lemma compile_pattern : compile pattern = Some pattern_ast.
Proof. vm_compute. reflexivity. Qed.

Lemma in_class_letters c :
  in_class [("A", "Z"); ("a", "z")]%char c = Spec.ascii_letter c.
Proof.
  unfold in_class, Spec.ascii_letter. simpl existsb.
  rewrite orb_false_r. reflexivity.
Qed.

Lemma all_chars_ext ok ok' s :
  (forall c, ok c = ok' c) -> all_chars ok s = all_chars ok' s.
Proof.
  intros E. induction s as [|a t IH]; simpl; [reflexivity|].
  now rewrite E, IH.
Qed.

Lemma in_run_letters c c' :
  In c' (run (Plus letter_class) c) <->
  exists w, Spec.letters w /\ consumes c w c'.
Proof.
  unfold letter_class. rewrite in_run_plus_class. unfold Spec.letters.
  split; intros (w & H); exists w;
    rewrite (all_chars_ext _ _ w in_class_letters) in *; tauto.
Qed.

Lemma in_run_tags c c' :
  In c' (run tags_regex c) <->
  exists tag, In tag Spec.tags /\ consumes c tag c'.
Proof.
  unfold tags_regex.
  change (run (Group ?r) c) with (run r c).
  repeat (change (run (Alt ?r1 ?r2) c) with (run r1 c ++ run r2 c);
          rewrite in_app_iff).
  rewrite !in_run_lit. unfold Spec.tags. split.
  - intros [H|[H|[H|[H|H]]]]; eexists; (split; [|exact H]); simpl; tauto.
  - intros (tag & Ht & H). simpl in Ht.
    destruct Ht as [<-|[<-|[<-|[<-|[<-|[]]]]]]; tauto.
Qed.

(** Where a match of the pattern begun at the start of [name] can end. *)
Lemma in_run_pattern name c' :
  In c' (run pattern_ast (start name)) <->
  exists tag a b,
    In tag Spec.tags /\ Spec.letters a /\ Spec.letters b /\
    consumes (start name) (tag +++ "-" +++ a +++ "-" +++ b +++ ".md") c' /\
    at_end (rest c') = true.
Proof.
  change pattern_ast with
    (Seq Caret (Seq tags_regex (lit_then "-" (Seq (Plus letter_class)
      (lit_then "-" (Seq (Plus letter_class)
        (lit_then ".md" (Seq Dollar Eps)))))))).
  split.
  - intros H.
    apply in_run_seq in H. destruct H as (m0 & H0 & H).
    apply in_run_caret in H0. destruct H0 as [-> _].
    apply in_run_seq in H. destruct H as (m1 & H1 & H).
    apply in_run_tags in H1. destruct H1 as (tag & Htag & C1).
    apply in_run_lit_then in H. destruct H as (m2 & C2 & H).
    apply in_run_seq in H. destruct H as (m3 & H3 & H).
    apply in_run_letters in H3. destruct H3 as (a & Ha & C3).
    apply in_run_lit_then in H. destruct H as (m4 & C4 & H).
    apply in_run_seq in H. destruct H as (m5 & H5 & H).
    apply in_run_letters in H5. destruct H5 as (b & Hb & C5).
    apply in_run_lit_then in H. destruct H as (m6 & C6 & H).
    apply in_run_seq in H. destruct H as (m7 & H7 & H).
    apply in_run_dollar in H7. destruct H7 as [-> Hend].
    destruct H as [<-|[]].
    exists tag, a, b. repeat (split; [assumption|]). split; [|exact Hend].
    apply (consumes_trans _ _ _ _ _ C1).
    apply (consumes_trans _ _ _ _ _ C2).
    apply (consumes_trans _ _ _ _ _ C3).
    apply (consumes_trans _ _ _ _ _ C4).
    apply (consumes_trans _ _ _ _ _ C5). exact C6.
  - intros (tag & a & b & Htag & Ha & Hb & C & Hend).
    apply consumes_split in C. destruct C as (m1 & C1 & C).
    apply consumes_split in C. destruct C as (m2 & C2 & C).
    apply consumes_split in C. destruct C as (m3 & C3 & C).
    apply consumes_split in C. destruct C as (m4 & C4 & C).
    apply consumes_split in C. destruct C as (m5 & C5 & C6).
    apply in_run_seq. exists (start name). split.
    { apply in_run_caret. split; reflexivity. }
    apply in_run_seq. exists m1. split.
    { apply in_run_tags. exists tag. split; assumption. }
    apply in_run_lit_then. exists m2. split; [exact C2|].
    apply in_run_seq. exists m3. split.
    { apply in_run_letters. exists a. split; assumption. }
    apply in_run_lit_then. exists m4. split; [exact C4|].
    apply in_run_seq. exists m5. split.
    { apply in_run_letters. exists b. split; assumption. }
    apply in_run_lit_then. exists c'. split; [exact C6|].
    apply in_run_seq. exists c'. split.
    { apply in_run_dollar. split; [reflexivity | exact Hend]. }
    now left.
Qed.

End ReFacts.

(** ** [validate_filename] against the naming convention *)

Lemma validate_filename_unfold name :
  validate_filename name =
  bool_of_match (hd_error (Re.run pattern_ast (Re.start name))).
Proof.
  unfold validate_filename, Re.re_match.
  now rewrite ReFacts.compile_pattern.
Qed.

(** The names the code accepts: a name of the convention, alone or
    followed by one line feed. *)
Lemma validate_filename_iff name :
  validate_filename name = true <->
  exists s t, name = s +++ t /\ Spec.naming_pattern s /\
              (t = "" \/ t = String LF "").
Proof.
  rewrite validate_filename_unfold, ReFacts.bool_of_match_hd. split.
  - intros (c' & H). apply ReFacts.in_run_pattern in H.
    destruct H as (tag & a & b & Htag & Ha & Hb & [R _] & Hend).
    simpl in R. apply ReFacts.at_end_iff in Hend.
    exists (tag +++ "-" +++ a +++ "-" +++ b +++ ".md"), (Re.rest c').
    split; [exact R|]. split; [|exact Hend].
    exists tag, a, b. repeat split; try assumption; apply Ha || apply Hb.
  - intros (s & t & -> & (tag & a & b & Htag & Ha & Hb & ->) & Ht).
    exists (Re.Cursor
              (String.length (tag +++ "-" +++ a +++ "-" +++ b +++ ".md")) t).
    apply ReFacts.in_run_pattern. exists tag, a, b.
    repeat (split; [assumption|]). split.
    + split; simpl; reflexivity.
    + apply ReFacts.at_end_iff. exact Ht.
Qed.

Lemma naming_pattern_last_char name :
  Spec.naming_pattern name -> last_char name = Some "d"%char.
Proof.
  intros (tag & a & b & _ & _ & _ & ->).
  rewrite <- !append_assoc.
  rewrite last_char_append by discriminate. reflexivity.
Qed.

(* ===================================================================== *)
(** * The scanning loop                                                  *)
(* ===================================================================== *)

Lemma mem_In x xs : mem x xs = true <-> In x xs.
Proof.
  unfold mem. rewrite existsb_exists. split.
  - intros (y & Hy & E). apply String.eqb_eq in E. now subst y.
  - intros H. exists x. split; [exact H | apply String.eqb_refl].
Qed.

Lemma scan_child_state (e : dirent) (st : state) :
  scan_child e st =
  (State (stdout st ++ report e)
         (total_files st + (if is_file e then 1 else 0))
         (valid_files st + (if is_valid e then 1 else 0))
         (invalid_files st ++ (if is_invalid e then [d_name e] else [])),
   inr tt).
Proof.
  destruct st as [out t v inv], e as [name dir].
  unfold scan_child, report, is_valid, is_invalid, is_file.
  cbn [d_name d_is_dir].
  generalize (mem name redirect_files) (validate_filename name).
  intros [|] [|]; destruct dir; simpl;
    unfold bind, ret, print, incr_total_files, incr_valid_files,
      invalid_files_append; simpl;
    rewrite ?app_nil_r, ?Nat.add_0_r; reflexivity.
Qed.

Lemma count_cons {A : Type} (p : A -> bool) (x : A) (l : list A) :
  count p (x :: l) = (if p x then 1 else 0) + count p l.
Proof. unfold count; simpl. now destruct (p x). Qed.

(** The loop never raises; it adds to the state what each child
    contributes, in listing order. *)
Lemma for_each_scan_child (l : list dirent) (st : state) :
  for_each l scan_child st =
  (State (stdout st ++ flat_map report l)
         (total_files st + count is_file l)
         (valid_files st + count is_valid l)
         (invalid_files st ++ map d_name (filter is_invalid l)),
   inr tt).
Proof.
  revert st. induction l as [|e l IH]; intros st.
  - destruct st; simpl. unfold ret, count; simpl.
    now rewrite !app_nil_r, !Nat.add_0_r.
  - simpl for_each. unfold bind at 1. rewrite scan_child_state, IH.
    cbn [stdout total_files valid_files invalid_files flat_map filter].
    rewrite !count_cons, <- !app_assoc, !Nat.add_assoc.
    destruct (is_invalid e); reflexivity.
Qed.

Lemma for_each_print (g : string -> string) (xs : list string) (st : state) :
  for_each xs (fun x => print (g x)) st =
  (State (stdout st ++ map g xs) (total_files st) (valid_files st)
         (invalid_files st), inr tt).
Proof.
  revert st. induction xs as [|x xs IH]; intros st.
  - destruct st; simpl. unfold ret. now rewrite app_nil_r.
  - simpl for_each. unfold bind at 1, print at 1. rewrite IH. simpl.
    now rewrite <- app_assoc.
Qed.

(** ** The three ways a run ends *)

Lemma run_script_absent (d : string) :
  run_script (World d Absent) =
  (State (header d ++ [missing_directory_message d]) 0 0 [],
   inl (SystemExit 1)).
Proof. reflexivity. Qed.

Lemma run_script_regular_file (d : string) :
  run_script (World d RegularFile) =
  (State (header d) 0 0 [], inl NotADirectoryError).
Proof. reflexivity. Qed.

Lemma run_script_directory (d : string) (l : list dirent) :
  let invalid := map d_name (filter is_invalid l) in
  run_script (World d (Directory l)) =
  (State (header d ++ flat_map report l
          ++ summary (count is_file l) (count is_valid l) (List.length invalid)
          ++ verdict invalid)
         (count is_file l) (count is_valid l) invalid,
   inl (SystemExit (match invalid with [] => 0 | _ :: _ => 1 end))).
Proof.
  intros invalid. unfold run_script, main.
  do 3 (unfold bind at 1, print at 1;
        cbn [stdout total_files valid_files invalid_files initial app]).
  unfold bind at 1, init_locals at 1. cbn [stdout].
  unfold bind at 1. cbn [os_path_exists docs_node negb]. unfold ret at 1.
  unfold bind at 1, os_listdir at 1. cbn [docs_node]. unfold ret at 1.
  unfold bind at 1. rewrite for_each_scan_child.
  cbn [stdout total_files valid_files invalid_files app Nat.add docs_dir].
  fold invalid. fold (header d).
  unfold bind, print, get.
  cbn [stdout total_files valid_files invalid_files].
  destruct invalid as [|x xs].
  - unfold sys_exit, raise. cbn [stdout total_files valid_files invalid_files verdict summary Datatypes.length].
    rewrite <- !app_assoc. reflexivity.
  - pose proof (for_each_print (String.append "- ")) as FP.
    unfold print in FP. rewrite FP. unfold sys_exit, raise.
    cbn [stdout total_files valid_files invalid_files verdict summary].
    rewrite <- !app_assoc. reflexivity.
Qed.

Lemma In_invalid_names (name : string) (l : list dirent) :
  In name (map d_name (filter is_invalid l)) <->
  exists e, In e l /\ d_name e = name /\ is_invalid e = true.
Proof.
  rewrite in_map_iff. split.
  - intros (e & E & H). apply filter_In in H. exists e. tauto.
  - intros (e & H & E & I). exists e. split; [exact E|].
    apply filter_In. tauto.
Qed.

Lemma is_invalid_iff (e : dirent) :
  is_invalid e = true <->
  d_is_dir e = false /\ mem (d_name e) redirect_files = false /\
  validate_filename (d_name e) = false.
Proof.
  unfold is_invalid, is_file. rewrite !andb_true_iff, !negb_true_iff. tauto.
Qed.

Lemma filter_nil_iff {A : Type} (p : A -> bool) (l : list A) :
  filter p l = [] <-> forall x, In x l -> p x = false.
Proof.
  induction l as [|a l IH]; simpl.
  - split; [intros _ x [] | reflexivity].
  - destruct (p a) eqn:E; split.
    + discriminate.
    + intros H. specialize (H a (or_introl eq_refl)). congruence.
    + intros H x [<-|Hx]; [exact E | now apply IH].
    + intros H. apply IH. intros x Hx. apply H. now right.
Qed.

Lemma run_script_unlistable (d : string) :
  run_script (World d UnlistableDirectory) =
  (State (header d) 0 0 [], inl PermissionError).
Proof. reflexivity. Qed.

(** The state and the result of a run, for every world. *)
Lemma run_script_state (w : world) :
  total_files (fst (run_script w)) = count is_file (listing w) /\
  valid_files (fst (run_script w)) = count is_valid (listing w) /\
  invalid_files (fst (run_script w))
  = map d_name (filter is_invalid (listing w)).
Proof.
  destruct w as [d [| |l|]].
  - rewrite run_script_absent. repeat split.
  - rewrite run_script_regular_file. repeat split.
  - rewrite run_script_directory. repeat split.
  - rewrite run_script_unlistable. repeat split.
Qed.

Lemma run_script_result (w : world) :
  snd (run_script w) =
  match docs_node w with
  | Absent => inl (SystemExit 1)
  | RegularFile => inl NotADirectoryError
  | Directory l =>
      inl (SystemExit (match filter is_invalid l with
                       | [] => 0
                       | _ :: _ => 1
                       end))
  | UnlistableDirectory => inl PermissionError
  end.
Proof.
  destruct w as [d [| |l|]].
  - now rewrite run_script_absent.
  - now rewrite run_script_regular_file.
  - rewrite run_script_directory. cbn [snd docs_node].
    now destruct (filter is_invalid l).
  - now rewrite run_script_unlistable.
Qed.

(* ===================================================================== *)
(** * Properties of [validate_filename]                                  *)
(* ===================================================================== *)

(** Every name of the convention is accepted. *)
Lemma validate_filename_complete (name : string) :
  Spec.naming_pattern name -> validate_filename name = true.
Proof.
  intros H. apply validate_filename_iff. exists name, "".
  rewrite append_nil_r. tauto.
Qed.

Lemma naming_pattern_not_before_LF (s : string) :
  ~ Spec.naming_pattern (s +++ String LF "").
Proof.
  intros H. apply naming_pattern_last_char in H.
  rewrite last_char_append in H by discriminate. discriminate.
Qed.

(** Names of the scenarios of the specification. *)
Example validate_ARCH_Foo_Bar : validate_filename "ARCH-Foo-Bar.md" = true.
Proof. vm_compute. reflexivity. Qed.

Example validate_README : validate_filename "README.md" = false.
Proof. vm_compute. reflexivity. Qed.

Example validate_lowercase_tag : validate_filename "spec-a-b.md" = false.
Proof. vm_compute. reflexivity. Qed.

Example validate_digit_in_segment : validate_filename "SPEC-a1-b.md" = false.
Proof. vm_compute. reflexivity. Qed.

Example validate_wrong_extension : validate_filename "SPEC-a-b.txt" = false.
Proof. vm_compute. reflexivity. Qed.

Example validate_leading_character : validate_filename " SPEC-a-b.md" = false.
Proof. vm_compute. reflexivity. Qed.

Example validate_trailing_space : validate_filename "SPEC-a-b.md " = false.
Proof. vm_compute. reflexivity. Qed.

(** C1, where the code departs from it: [validate_filename] is meant to
    return true exactly on the names that match the naming pattern from
    the first character to the last.  On the name [ARCH-Foo-Bar.md]
    followed by a line feed it returns true, although that name is not of
    the pattern: [$] also matches just before a final line feed. *)
Theorem validate_filename_not_anchored_at_end :
  validate_filename ("ARCH-Foo-Bar.md" +++ String LF "") = true /\
  ~ Spec.naming_pattern ("ARCH-Foo-Bar.md" +++ String LF "").
Proof.
  split.
  - vm_compute. reflexivity.
  - apply naming_pattern_not_before_LF.
Qed.

(** C5, where the code departs from it: a name that deviates from the
    pattern in a single way is meant to be rejected.  [META-A-B.md] is of
    the pattern; with one extra trailing character, a line feed, the name
    is no longer of the pattern, and [validate_filename] still returns
    true. *)
Theorem validate_filename_extra_trailing_line_feed :
  Spec.naming_pattern "META-A-B.md" /\
  ~ Spec.naming_pattern ("META-A-B.md" +++ String LF "") /\
  validate_filename ("META-A-B.md" +++ String LF "") = true.
Proof.
  split; [|split].
  - exists "META", "A", "B". repeat split; simpl; try tauto; discriminate.
  - apply naming_pattern_not_before_LF.
  - vm_compute. reflexivity.
Qed.

(** C8: a name of the pattern followed by a single line feed is not a
    full match of the pattern, and [validate_filename] returns true on it,
    because [$] matches just before a trailing line feed. *)
Theorem validate_filename_trailing_line_feed (s : string) :
  Spec.naming_pattern s ->
  validate_filename (s +++ String LF "") = true /\
  ~ Spec.naming_pattern (s +++ String LF "").
Proof.
  intros H. split.
  - apply validate_filename_iff. exists s, (String LF ""). tauto.
  - apply naming_pattern_not_before_LF.
Qed.

Lemma validate_filename_trailing_line_feed_witness :
  Spec.naming_pattern "SPEC-a-b.md" /\
  validate_filename ("SPEC-a-b.md" +++ String LF "") = true /\
  ~ Spec.naming_pattern ("SPEC-a-b.md" +++ String LF "").
Proof.
  assert (H : Spec.naming_pattern "SPEC-a-b.md").
  { exists "SPEC", "a", "b". repeat split; simpl; try tauto; discriminate. }
  split; [exact H|].
  exact (validate_filename_trailing_line_feed "SPEC-a-b.md" H).
Defined.

(** C9: [validate_filename] returns false on each of the ten names of
    [redirect_files]; no child is both exempt and valid, and no entry of
    the list hides a name that would have passed the pattern. *)
Theorem redirect_files_fail_pattern (name : string) :
  In name redirect_files ->
  validate_filename name = false /\
  List.length redirect_files = 10 /\
  (forall e, d_name e = name -> is_valid e = false).
Proof.
  intros H. split; [|split].
  - simpl in H.
    repeat (destruct H as [<-|H]; [vm_compute; reflexivity|]).
    destruct H.
  - reflexivity.
  - intros e <-. apply mem_In in H. unfold is_valid. rewrite H.
    now rewrite andb_false_r.
Qed.

Lemma redirect_files_fail_pattern_witness :
  In "文档导航.md" redirect_files /\
  validate_filename "文档导航.md" = false.
Proof.
  assert (H : In "文档导航.md" redirect_files) by (simpl; tauto).
  split; [exact H|].
  exact (proj1 (redirect_files_fail_pattern "文档导航.md" H)).
Defined.

(* ===================================================================== *)
(** * Properties of a run                                                *)
(* ===================================================================== *)

(** Some file that is not exempt fails the pattern exactly when the filter
    of the invalid children is not empty. *)
Lemma violation_iff (l : list dirent) :
  (exists e, In e l /\ d_is_dir e = false /\
             mem (d_name e) redirect_files = false /\
             validate_filename (d_name e) = false)
  <-> filter is_invalid l <> [].
Proof.
  split.
  - intros (e & He & Hi) H. apply is_invalid_iff in Hi.
    rewrite (proj1 (filter_nil_iff _ _) H e He) in Hi. discriminate.
  - intros H. destruct (filter is_invalid l) as [|e l'] eqn:E; [congruence|].
    exists e. rewrite <- is_invalid_iff. apply filter_In.
    rewrite E. now left.
Qed.

(** Every run ends with status 0 or 1. *)
Lemma exit_status_is_zero_or_one (w : world) :
  exit_status (snd (run_script w)) = 0%Z \/
  exit_status (snd (run_script w)) = 1%Z.
Proof.
  rewrite run_script_result.
  destruct (docs_node w) as [| |l|]; cbn [exit_status]; try (now right).
  destruct (filter is_invalid l); [now left | now right].
Qed.

(** C2 as it is written does not hold of a docs directory that exists and
    that [os.listdir] cannot list: the directory exists, the list of
    invalid names is empty and no file fails the pattern, and the run ends
    with status 1, on the uncaught [PermissionError].  Both equivalences of
    the statement are false there. *)
Lemma exit_status_of_unlistable_directory :
  os_path_exists (World "/repo/docs" UnlistableDirectory) = true /\
  invalid_files (fst (run_script (World "/repo/docs" UnlistableDirectory)))
  = [] /\
  exit_status (snd (run_script (World "/repo/docs" UnlistableDirectory)))
  = 1%Z /\
  ~ (exit_status (snd (run_script (World "/repo/docs" UnlistableDirectory)))
     = 0%Z
     <-> os_path_exists (World "/repo/docs" UnlistableDirectory) = true /\
         invalid_files
           (fst (run_script (World "/repo/docs" UnlistableDirectory))) = []) /\
  ~ (exit_status (snd (run_script (World "/repo/docs" UnlistableDirectory)))
     = 1%Z
     <-> os_path_exists (World "/repo/docs" UnlistableDirectory) = false \/
         exists e,
           In e (listing (World "/repo/docs" UnlistableDirectory)) /\
           d_is_dir e = false /\
           mem (d_name e) redirect_files = false /\
           validate_filename (d_name e) = false).
Proof.
  rewrite run_script_unlistable.
  cbn [fst snd invalid_files exit_status os_path_exists docs_node listing].
  repeat split.
  - intros [_ H]. specialize (H (conj eq_refl eq_refl)). discriminate.
  - intros [H _]. destruct (H eq_refl) as [E|(e & [] & _)]. discriminate.
Qed.

(** C2, amended.  When [os.listdir] does not raise (nothing is at the docs
    path, or a directory that can be listed), the run ends with status 0
    exactly when the directory exists and the list of invalid names is
    empty, and with status 1 exactly when it does not exist or some file
    that is not exempt fails the pattern; [sys.exit(0)] and [sys.exit(1)]
    are reached under the same conditions.  When [os.listdir] raises (a
    file that is not a directory, or a directory that cannot be listed),
    the path exists, the list of invalid names is empty, no [sys.exit] is
    reached and the status is 1.  There is never another status. *)
Theorem exit_status_when_listing_succeeds (w : world) :
  let r := run_script w in
  let violation :=
    exists e, In e (listing w) /\ d_is_dir e = false /\
              mem (d_name e) redirect_files = false /\
              validate_filename (d_name e) = false in
  (listing_fails w = false ->
   (exit_status (snd r) = 0%Z <->
    os_path_exists w = true /\ invalid_files (fst r) = []) /\
   (exit_status (snd r) = 1%Z <-> os_path_exists w = false \/ violation) /\
   (snd r = inl (SystemExit 0) <->
    os_path_exists w = true /\ invalid_files (fst r) = []) /\
   (snd r = inl (SystemExit 1) <-> os_path_exists w = false \/ violation)) /\
  (listing_fails w = true ->
   os_path_exists w = true /\ invalid_files (fst r) = [] /\
   exit_status (snd r) = 1%Z /\
   forall code, snd r <> inl (SystemExit code)) /\
  (exit_status (snd r) = 0%Z \/ exit_status (snd r) = 1%Z).
Proof.
  intros r violation.
  split; [|split; [|apply exit_status_is_zero_or_one]].
  - intros L.
    pose proof (violation_iff (listing w)) as V. fold violation in V.
    destruct (run_script_state w) as (_ & _ & Hinv).
    pose proof (run_script_result w) as Hres.
    fold r in Hinv, Hres. rewrite Hinv, Hres, V. clear Hinv Hres V r.
    destruct w as [d [| |l|]]; cbn [listing_fails docs_node] in L;
      try discriminate;
      cbn [docs_node listing exit_status filter map os_path_exists].
    + split; [|split; [|split]]; split;
        try discriminate; try (now left);
        try (intros [E _]; discriminate); reflexivity.
    + destruct (filter is_invalid l) as [|e l'] eqn:E; cbn [map exit_status].
      * split; [|split; [|split]]; split;
          try discriminate; try reflexivity; try (intros _; now split);
          try (intros [H|H]; [discriminate | congruence]).
      * split; [|split; [|split]]; split;
          try discriminate; try reflexivity;
          try (intros [_ H]; discriminate);
          try (intros _; right; discriminate).
  - intros L. subst r.
    destruct w as [d [| |l|]]; cbn [listing_fails docs_node] in L;
      try discriminate.
    + rewrite run_script_regular_file. repeat split. discriminate.
    + rewrite run_script_unlistable. repeat split. discriminate.
Qed.

Lemma exit_status_when_listing_succeeds_witness :
  listing_fails
    (World "/repo/docs"
       (Directory [Dirent "META-A-B.md" false; Dirent "README.md" false]))
  = false /\
  exit_status
    (snd (run_script
            (World "/repo/docs"
               (Directory [Dirent "META-A-B.md" false;
                           Dirent "README.md" false]))))
  = 1%Z.
Proof.
  split; [reflexivity|].
  apply (proj1 (proj2 (proj1
    (exit_status_when_listing_succeeds
       (World "/repo/docs"
          (Directory [Dirent "META-A-B.md" false; Dirent "README.md" false])))
    eq_refl))).
  right. exists (Dirent "README.md" false).
  split; [simpl; tauto|]. repeat split; vm_compute; reflexivity.
Defined.

(** Every file is of exactly one class. *)
Lemma classes_partition (e : dirent) :
  (if is_file e then 1 else 0)
  = (if is_valid e then 1 else 0) + (if is_invalid e then 1 else 0)
    + (if is_exempt e then 1 else 0).
Proof.
  unfold is_valid, is_invalid, is_exempt.
  destruct (is_file e), (mem (d_name e) redirect_files),
    (validate_filename (d_name e)); reflexivity.
Qed.

Lemma count_classes (l : list dirent) :
  count is_file l = count is_valid l + count is_invalid l + count is_exempt l.
Proof.
  induction l as [|e l IH]; [reflexivity|].
  rewrite !count_cons, IH, (classes_partition e). lia.
Qed.

(** C3: after every run, [total_files] is the number of children that are
    not directories, [valid_files] the number of those that are not exempt
    and pass the pattern, the length of [invalid_files] the number of
    those that are not exempt and fail it, and the total is the sum of the
    valid, the invalid and the exempt files. *)
Theorem counters_consistent (w : world) :
  let st := fst (run_script w) in
  total_files st = count is_file (listing w) /\
  valid_files st = count is_valid (listing w) /\
  List.length (invalid_files st) = count is_invalid (listing w) /\
  total_files st
  = valid_files st + List.length (invalid_files st)
    + count is_exempt (listing w).
Proof.
  intros st. destruct (run_script_state w) as (Ht & Hv & Hi).
  fold st in Ht, Hv, Hi.
  rewrite Ht, Hv, Hi, length_map. fold (count is_invalid (listing w)).
  repeat split. apply count_classes.
Qed.

(** C7: the list of invalid names at the end of a run is the listing
    restricted to the children that are not directories, are not exempt
    and fail the pattern, in the order of the listing. *)
Theorem invalid_files_in_listing_order (w : world) :
  invalid_files (fst (run_script w))
  = map d_name
      (filter (fun e => negb (d_is_dir e)
                        && negb (mem (d_name e) redirect_files)
                        && negb (validate_filename (d_name e)))
              (listing w)).
Proof. apply run_script_state. Qed.

(** C4: for a file whose name is an entry of [redirect_files], the loop
    body only counts the file and prints the "skipped" line, whatever the
    shape of the name: [valid_files] and [invalid_files] are left as they
    were and the file is of neither class; in a whole run the name never
    enters [invalid_files], and the "skipped" line is printed for it. *)
Theorem exempt_file_skipped (name : string) :
  In name redirect_files ->
  (forall st,
     scan_child (Dirent name false) st
     = (State (stdout st ++ ["跳过重定向文件: " +++ name])
              (total_files st + 1) (valid_files st) (invalid_files st),
        inr tt)) /\
  is_valid (Dirent name false) = false /\
  is_invalid (Dirent name false) = false /\
  (forall w, ~ In name (invalid_files (fst (run_script w)))) /\
  (forall w, In (Dirent name false) (listing w) ->
             In ("跳过重定向文件: " +++ name) (stdout (fst (run_script w)))).
Proof.
  intros H. apply mem_In in H.
  assert (R : report (Dirent name false) = ["跳过重定向文件: " +++ name]).
  { unfold report. cbn [d_is_dir d_name]. now rewrite H. }
  assert (V : is_valid (Dirent name false) = false).
  { unfold is_valid. cbn [d_name]. now rewrite H, andb_false_r. }
  assert (I : is_invalid (Dirent name false) = false).
  { unfold is_invalid. cbn [d_name]. now rewrite H, andb_false_r. }
  repeat split; trivial.
  - intros st. rewrite scan_child_state, R, V, I.
    now rewrite app_nil_r, Nat.add_0_r.
  - intros w Hin. destruct (run_script_state w) as (_ & _ & E).
    rewrite E in Hin. apply In_invalid_names in Hin.
    destruct Hin as (e & _ & <- & Hi). apply is_invalid_iff in Hi.
    destruct Hi as (_ & Hm & _). congruence.
  - intros [d [| |l|]] Hin; cbn [listing docs_node] in Hin; try contradiction.
    rewrite run_script_directory. cbn [fst stdout].
    apply in_or_app. right. apply in_or_app. left.
    apply in_flat_map. exists (Dirent name false). split; [exact Hin|].
    rewrite R. now left.
Qed.

Lemma exempt_file_skipped_witness :
  In "02b-state-machine-specification.md" redirect_files /\
  scan_child (Dirent "02b-state-machine-specification.md" false) initial
  = (State ["跳过重定向文件: 02b-state-machine-specification.md"] 1 0 [],
     inr tt).
Proof.
  assert (H : In "02b-state-machine-specification.md" redirect_files)
    by (simpl; tauto).
  split; [exact H|].
  exact (proj1 (exempt_file_skipped "02b-state-machine-specification.md" H)
           initial).
Defined.

(** C6: when nothing exists at the docs path, the run prints the three
    opening lines and the message that names the missing path, then ends
    through [sys.exit(1)]: no line about any file is printed and the
    counters are still zero. *)
Theorem missing_directory_exits_at_once (d : string) :
  run_script (World d Absent)
  = (State ["开始验证文档文件名规范..."; "文档目录: " +++ d;
            "验证模式: " +++ pattern;
            "错误: 文档目录 " +++ d +++ " 不存在"] 0 0 [],
     inl (SystemExit 1)) /\
  exit_status (snd (run_script (World d Absent))) = 1%Z.
Proof. split; reflexivity. Qed.

(** C10: the existence test fails only when nothing is at the docs path.
    When a regular file is there, the test passes, the message about the
    missing directory is not printed, [sys.exit(1)] is not reached, and
    the run ends in [os.listdir] with an uncaught [NotADirectoryError]. *)
Theorem regular_file_at_docs_path (d : string) :
  (forall w, os_path_exists w = false <-> docs_node w = Absent) /\
  os_path_exists (World d RegularFile) = true /\
  run_script (World d RegularFile)
  = (State ["开始验证文档文件名规范..."; "文档目录: " +++ d;
            "验证模式: " +++ pattern] 0 0 [],
     inl NotADirectoryError) /\
  ~ In (missing_directory_message d)
       (stdout (fst (run_script (World d RegularFile)))) /\
  snd (run_script (World d RegularFile)) <> inl (SystemExit 1).
Proof.
  split; [|split; [|split; [|split]]].
  - intros [d' [| |l|]]; cbn; split; intros H; congruence.
  - reflexivity.
  - reflexivity.
  - rewrite run_script_regular_file. cbn [fst stdout header].
    unfold missing_directory_message.
    intros [H|[H|[H|[]]]]; simpl in H; discriminate.
  - rewrite run_script_regular_file. discriminate.
Qed.

(* ===================================================================== *)
(** * Further properties of [validate_filename]                          *)
(* ===================================================================== *)

Lemma all_chars_app (ok : ascii -> bool) (a b : string) :
  all_chars ok (a +++ b) = all_chars ok a && all_chars ok b.
Proof.
  induction a as [|x a IH]; simpl; [reflexivity|].
  now rewrite IH, andb_assoc.
Qed.

Lemma all_chars_weaken (ok ok' : ascii -> bool) (s : string) :
  (forall c, ok c = true -> ok' c = true) ->
  all_chars ok s = true -> all_chars ok' s = true.
Proof.
  intros W. induction s as [|x s IH]; simpl; [reflexivity|].
  rewrite !andb_true_iff. intros [Hx Hs]. split; [now apply W | now apply IH].
Qed.

Lemma letters_name_chars (s : string) :
  Spec.letters s -> all_chars name_char s = true.
Proof.
  intros [_ H]. apply (all_chars_weaken Spec.ascii_letter); [|exact H].
  intros c Hc. unfold name_char. now rewrite Hc.
Qed.

Lemma tags_name_chars (tag : string) :
  In tag Spec.tags -> all_chars name_char tag = true.
Proof.
  intros H. simpl in H.
  repeat (destruct H as [<-|H]; [vm_compute; reflexivity|]). destruct H.
Qed.

Lemma naming_pattern_name_chars (s : string) :
  Spec.naming_pattern s -> all_chars name_char s = true.
Proof.
  intros (tag & a & b & Ht & Ha & Hb & ->).
  rewrite !all_chars_app, (tags_name_chars tag Ht),
    (letters_name_chars a Ha), (letters_name_chars b Hb).
  reflexivity.
Qed.

Lemma prefix_append (a b : string) : String.prefix a (a +++ b) = true.
Proof.
  induction a as [|x a IH]; simpl.
  - now destruct b.
  - destruct (ascii_dec x x) as [_|N]; [exact IH | now elim N].
Qed.

Lemma tags_length (tag : string) :
  In tag Spec.tags -> 2 <= String.length tag.
Proof.
  intros H. simpl in H.
  repeat (destruct H as [<-|H]; [simpl; lia|]). destruct H.
Qed.

(** X1: [validate_filename] returns true exactly on the names of the
    convention (tag, hyphen, letters, hyphen, letters, [.md]) and on such a
    name followed by one line feed. *)
Theorem validate_filename_accepts_exactly (name : string) :
  validate_filename name = true <->
  Spec.naming_pattern name \/
  exists s, Spec.naming_pattern s /\ name = s +++ String LF "".
Proof.
  rewrite validate_filename_iff. split.
  - intros (s & t & -> & Hs & [->| ->]).
    + left. now rewrite append_nil_r.
    + right. now exists s.
  - intros [H|(s & Hs & ->)].
    + exists name, "". rewrite append_nil_r. tauto.
    + exists s, (String LF ""). tauto.
Qed.

(** X2: a name that holds any character other than an ASCII letter, a
    hyphen, a dot or a line feed (a digit, a space, an underscore, a byte of
    a non-ASCII character) is rejected. *)
Theorem validate_filename_rejects_other_characters (name : string) :
  all_chars name_char name = false -> validate_filename name = false.
Proof.
  intros H. destruct (validate_filename name) eqn:V; [|reflexivity].
  apply validate_filename_iff in V.
  destruct V as (s & t & -> & Hs & Ht).
  rewrite all_chars_app, (naming_pattern_name_chars s Hs) in H.
  destruct Ht as [->| ->]; discriminate.
Qed.

Lemma validate_filename_rejects_other_characters_witness :
  all_chars name_char "SPEC-a1-b.md" = false /\
  validate_filename "SPEC-a1-b.md" = false.
Proof.
  assert (H : all_chars name_char "SPEC-a1-b.md" = false) by reflexivity.
  split; [exact H|].
  exact (validate_filename_rejects_other_characters "SPEC-a1-b.md" H).
Defined.

(** X3: an accepted name starts with one of the five tags, in capitals,
    and a hyphen; it ends with [.md], or with [.md] and a line feed; it has
    at least nine characters. *)
Theorem validate_filename_accepted_shape (name : string) :
  validate_filename name = true ->
  (exists tag, In tag Spec.tags /\ String.prefix (tag +++ "-") name = true) /\
  (exists p, name = p +++ ".md" \/ name = p +++ ".md" +++ String LF "") /\
  9 <= String.length name.
Proof.
  intros V. apply validate_filename_iff in V.
  destruct V as (s & t & -> & (tag & a & b & Ht & Ha & Hb & ->) & Hend).
  split; [|split].
  - exists tag. split; [exact Ht|].
    rewrite !append_assoc, <- (append_assoc tag "-"). apply prefix_append.
  - exists (tag +++ "-" +++ a +++ "-" +++ b).
    destruct Hend as [->| ->]; [left | right];
      rewrite ?append_nil_r, !append_assoc; reflexivity.
  - pose proof (tags_length tag Ht) as Lt.
    destruct Ha as [Na _], Hb as [Nb _].
    rewrite !length_append.
    destruct a; [congruence|]. destruct b; [congruence|]. simpl. lia.
Qed.

Lemma validate_filename_accepted_shape_witness :
  validate_filename "QA-x-y.md" = true /\
  9 <= String.length "QA-x-y.md".
Proof.
  assert (H : validate_filename "QA-x-y.md" = true) by (vm_compute; reflexivity).
  split; [exact H|].
  exact (proj2 (proj2 (validate_filename_accepted_shape "QA-x-y.md" H))).
Defined.

(* ===================================================================== *)
(** * Further properties of a run                                        *)
(* ===================================================================== *)

Lemma filter_filter_sub {A : Type} (p q : A -> bool) (l : list A) :
  (forall x, p x = true -> q x = true) ->
  filter p (filter q l) = filter p l.
Proof.
  intros S. induction l as [|x l IH]; simpl; [reflexivity|].
  destruct (q x) eqn:Q; simpl.
  - now rewrite IH.
  - destruct (p x) eqn:P; [|exact IH]. apply S in P. congruence.
Qed.

Lemma is_valid_is_file (e : dirent) : is_valid e = true -> is_file e = true.
Proof. unfold is_valid. rewrite !andb_true_iff. tauto. Qed.

Lemma is_invalid_is_file (e : dirent) : is_invalid e = true -> is_file e = true.
Proof. unfold is_invalid. rewrite !andb_true_iff. tauto. Qed.

Lemma report_files_only (l : list dirent) :
  flat_map report (filter is_file l) = flat_map report l.
Proof.
  induction l as [|e l IH]; simpl; [reflexivity|].
  unfold is_file at 1. destruct (d_is_dir e) eqn:D; simpl.
  - unfold report at 2. now rewrite D.
  - now rewrite IH.
Qed.

Lemma directories_are_ignored_state (d : string) (l : list dirent) :
  run_script (World d (Directory l))
  = run_script (World d (Directory (filter is_file l))).
Proof.
  rewrite !run_script_directory. cbv zeta. unfold count.
  rewrite report_files_only.
  rewrite (filter_filter_sub is_file is_file) by trivial.
  rewrite (filter_filter_sub is_valid is_file) by apply is_valid_is_file.
  rewrite (filter_filter_sub is_invalid is_file) by apply is_invalid_is_file.
  reflexivity.
Qed.

(** X4: the directories among the children change nothing: a run over a
    listing and a run over the same listing without its directories print
    the same lines, end with the same counters and the same result. *)
Theorem directories_are_ignored (d : string) (l : list dirent) :
  run_script (World d (Directory l))
  = run_script (World d (Directory (filter is_file l))).
Proof. apply directories_are_ignored_state. Qed.

Lemma Permutation_filter_keep {A : Type} (p : A -> bool) (l l' : list A) :
  Permutation l l' -> Permutation (filter p l) (filter p l').
Proof.
  induction 1 as [|x l l' _ IH|x y l|l l' l'' _ IH1 _ IH2]; simpl.
  - constructor.
  - destruct (p x); [now constructor | exact IH].
  - destruct (p x), (p y); try apply Permutation_refl. apply perm_swap.
  - now apply Permutation_trans with (filter p l').
Qed.

(** X5: the order of the listing does not change the verdict: two listings
    with the same children in any order give the same counters, the same
    invalid names up to order, and the same exit status. *)
Theorem listing_order_does_not_change_verdict
  (d d' : string) (l l' : list dirent) :
  Permutation l l' ->
  let r := run_script (World d (Directory l)) in
  let r' := run_script (World d' (Directory l')) in
  total_files (fst r) = total_files (fst r') /\
  valid_files (fst r) = valid_files (fst r') /\
  Permutation (invalid_files (fst r)) (invalid_files (fst r')) /\
  exit_status (snd r) = exit_status (snd r').
Proof.
  intros P r r'. subst r r'. rewrite !run_script_directory. cbv zeta.
  cbn [fst snd total_files valid_files invalid_files]. unfold count.
  pose proof (Permutation_filter_keep is_invalid l l' P) as Pi.
  repeat split.
  - apply Permutation_length. now apply Permutation_filter_keep.
  - apply Permutation_length. now apply Permutation_filter_keep.
  - now apply Permutation_map.
  - destruct (filter is_invalid l) as [|x xs], (filter is_invalid l') as [|y ys];
      try reflexivity.
    + apply Permutation_nil in Pi. discriminate.
    + apply Permutation_sym, Permutation_nil in Pi. discriminate.
Qed.

Lemma listing_order_does_not_change_verdict_witness :
  exit_status
    (snd (run_script (World "/repo/docs"
            (Directory [Dirent "README.md" false; Dirent "QA-a-b.md" false]))))
  = exit_status
      (snd (run_script (World "/repo/docs"
              (Directory [Dirent "QA-a-b.md" false; Dirent "README.md" false])))).
Proof.
  exact (proj2 (proj2 (proj2
    (listing_order_does_not_change_verdict "/repo/docs" "/repo/docs"
       [Dirent "README.md" false; Dirent "QA-a-b.md" false]
       [Dirent "QA-a-b.md" false; Dirent "README.md" false]
       (perm_swap _ _ []))))).
Defined.

(** X6: what a run over a directory prints, in order: the three opening
    lines; one line for each child that is not a directory, in listing
    order, saying skipped, valid or invalid; the summary with the three
    counts in decimal; then the success line, or the list of the invalid
    names, each after a dash, and the failure line. *)
Theorem directory_run_output (d : string) (l : list dirent) :
  let st := fst (run_script (World d (Directory l))) in
  stdout st
  = ["开始验证文档文件名规范..."; "文档目录: " +++ d; "验证模式: " +++ pattern]
    ++ flat_map report l
    ++ [String LF "验证结果:";
        "总文件数: " +++ str (total_files st);
        "有效文件数: " +++ str (valid_files st);
        "无效文件数: " +++ str (List.length (invalid_files st))]
    ++ match invalid_files st with
       | [] => [String LF "成功: 所有文件都符合命名规范"]
       | _ :: _ =>
           [String LF "无效文件列表:"]
           ++ map (fun filename => "- " +++ filename) (invalid_files st)
           ++ [String LF "错误: 发现不符合命名规范的文件"]
       end.
Proof.
  intros st. subst st. rewrite run_script_directory. cbv zeta.
  cbn [fst stdout total_files valid_files invalid_files].
  unfold header, summary, verdict.
  destruct (map d_name (filter is_invalid l)); reflexivity.
Qed.


Lemma filter_app_nil {A : Type} (p : A -> bool) (l1 l2 : list A) :
  filter p (l1 ++ l2) = [] <-> filter p l1 = [] /\ filter p l2 = [].
Proof.
  rewrite filter_app. split.
  - intros H. apply app_eq_nil in H. exact H.
  - intros [-> ->]. reflexivity.
Qed.

(** X8: a directory passes exactly when each part of its listing passes:
    the run over two listings put end to end has exit status 0 if and only
    if the run over each of them has. *)
Theorem exit_status_of_joined_listings (d : string) (l1 l2 : list dirent) :
  exit_status (snd (run_script (World d (Directory (l1 ++ l2))))) = 0%Z <->
  exit_status (snd (run_script (World d (Directory l1)))) = 0%Z /\
  exit_status (snd (run_script (World d (Directory l2)))) = 0%Z.
Proof.
  assert (E : forall l,
    exit_status (snd (run_script (World d (Directory l)))) = 0%Z
    <-> filter is_invalid l = []).
  { intros l. rewrite run_script_result. cbn [docs_node exit_status].
    destruct (filter is_invalid l); split; intros H;
      try reflexivity; discriminate. }
  rewrite !E. apply filter_app_nil.
Qed.

(** X9: whatever is at the docs path, a run first prints the three opening
    lines, and it never falls off the end of [main]: it ends by
    [sys.exit] or by the exception of [os.listdir]. *)
Theorem run_opens_and_never_returns (w : world) :
  (exists more,
     stdout (fst (run_script w))
     = ["开始验证文档文件名规范..."; "文档目录: " +++ docs_dir w;
        "验证模式: " +++ pattern] ++ more) /\
  (exists e, snd (run_script w) = inl e) /\
  snd (run_script w) <> inl FileNotFoundError.
Proof.
  destruct w as [d [| |l|]].
  - rewrite run_script_absent. split; [|split].
    + now exists [missing_directory_message d].
    + now eexists.
    + discriminate.
  - rewrite run_script_regular_file. split; [|split].
    + now exists [].
    + now eexists.
    + discriminate.
  - rewrite run_script_directory. cbv zeta. split; [|split].
    + eexists. reflexivity.
    + now eexists.
    + discriminate.
  - rewrite run_script_unlistable. split; [|split].
    + now exists [].
    + now eexists.
    + discriminate.
Qed.

Lemma written_app (xs ys : list string) :
  written (xs ++ ys) = written xs +++ written ys.
Proof.
  induction xs as [|x xs IH]; [reflexivity|].
  cbn [app written]. rewrite IH, append_assoc. reflexivity.
Qed.

Lemma written_last (xs : list string) (line : string) :
  written (xs ++ [line]) = written xs +++ line +++ String LF "".
Proof. rewrite written_app. reflexivity. Qed.

Lemma last_two_cons (a : ascii) (s : string) :
  2 <= String.length s -> last_two (String a s) = last_two s.
Proof.
  destruct s as [|b [|c s]]; simpl; intros H; try lia. reflexivity.
Qed.

Lemma last_two_append (p q : string) :
  2 <= String.length q -> last_two (p +++ q) = last_two q.
Proof.
  intros H. induction p as [|a p IH]; [reflexivity|].
  cbn [String.append]. rewrite last_two_cons; [exact IH|].
  rewrite length_append. lia.
Qed.

(** What is written ends with the last character of the last line and a
    line feed. *)
Lemma last_two_line (p line : string) (c : ascii) :
  last_char line = Some c ->
  last_two (p +++ line +++ String LF "") = Some (c, LF).
Proof.
  intros H. rewrite last_two_append.
  - induction line as [|a t IH]; [discriminate|].
    destruct t as [|b t].
    + simpl in H. injection H as ->. reflexivity.
    + cbn [String.append]. rewrite last_two_cons.
      * apply IH. exact H.
      * cbn [String.append String.length]. rewrite length_append. simpl. lia.
  - destruct line; [discriminate|].
    cbn [String.append String.length]. rewrite length_append. simpl. lia.
Qed.

Lemma verdict_cons (x : string) (xs : list string) :
  verdict (x :: xs)
  = (String LF "无效文件列表:" :: map (String.append "- ") (x :: xs))
    ++ [String LF "错误: 发现不符合命名规范的文件"].
Proof. reflexivity. Qed.

(** The two characters a run writes last: the end of the last line
    printed, which no file name reaches. *)
Lemma last_two_output (w : world) :
  exists c,
    last_two (output (fst (run_script w))) = Some (c, LF) /\
    Some c =
    match docs_node w with
    | Absent => last_char " 不存在"
    | RegularFile | UnlistableDirectory => last_char pattern
    | Directory l =>
        match filter is_invalid l with
        | [] => last_char "成功: 所有文件都符合命名规范"
        | _ :: _ => last_char "错误: 发现不符合命名规范的文件"
        end
    end.
Proof.
  unfold output. destruct w as [d [| |l|]]; cbn [docs_node].
  - rewrite run_script_absent. cbn [fst stdout].
    eexists. split; [|reflexivity].
    rewrite written_last. apply last_two_line.
    unfold missing_directory_message.
    rewrite <- append_assoc, last_char_append by discriminate. reflexivity.
  - rewrite run_script_regular_file. cbn [fst stdout].
    eexists. split; [|reflexivity].
    change (header d)
      with (["开始验证文档文件名规范..."; "文档目录: " +++ d]
            ++ ["验证模式: " +++ pattern]).
    rewrite written_last. apply last_two_line. reflexivity.
  - rewrite run_script_directory. cbv zeta. cbn [fst stdout].
    destruct (filter is_invalid l) as [|e l'] eqn:E; cbn [map].
    + eexists. split; [|reflexivity]. cbn [verdict].
      rewrite !app_assoc, written_last. apply last_two_line. reflexivity.
    + eexists. split; [|reflexivity].
      rewrite verdict_cons, !app_assoc, written_last.
      apply last_two_line. reflexivity.
  - rewrite run_script_unlistable. cbn [fst stdout].
    eexists. split; [|reflexivity].
    change (header d)
      with (["开始验证文档文件名规范..."; "文档目录: " +++ d]
            ++ ["验证模式: " +++ pattern]).
    rewrite written_last. apply last_two_line. reflexivity.
Qed.

(** X10: the end of what a run writes agrees with its exit status: the
    output ends with the success line exactly in the runs that end with
    status 0, and with the failure line about names exactly in the runs over
    a directory that leave a name in [invalid_files]; those end with
    status 1. *)
Theorem output_ends_with_verdict (w : world) :
  let r := run_script w in
  (ends_with (output (fst r))
     (String LF "成功: 所有文件都符合命名规范" +++ String LF "") <->
   exit_status (snd r) = 0%Z) /\
  (ends_with (output (fst r))
     (String LF "错误: 发现不符合命名规范的文件" +++ String LF "") <->
   (exists l, docs_node w = Directory l) /\ invalid_files (fst r) <> []) /\
  (ends_with (output (fst r))
     (String LF "错误: 发现不符合命名规范的文件" +++ String LF "") ->
   exit_status (snd r) = 1%Z).
Proof.
  intros r.
  assert (T : forall line c, last_char line = Some c ->
            ends_with (output (fst r)) (line +++ String LF "") ->
            last_two (output (fst r)) = Some (c, LF)).
  { intros line c Hc [p ->]. now apply last_two_line. }
  pose proof (T (String LF "成功: 所有文件都符合命名规范") _ eq_refl) as TS.
  pose proof (T (String LF "错误: 发现不符合命名规范的文件") _ eq_refl) as TF.
  clear T.
  destruct (last_two_output w) as (c & L & Hc). fold r in L.
  rewrite L in TS, TF.
  destruct (run_script_state w) as (_ & _ & Hinv).
  pose proof (run_script_result w) as Hres. fold r in Hinv, Hres.
  rewrite Hinv, Hres.
  assert (O : output (fst r) = written (stdout (fst (run_script w))))
    by reflexivity.
  destruct w as [d [| |l|]]; cbn [docs_node listing] in *.
  - assert (NS : ~ ends_with (output (fst r))
                   (String LF "成功: 所有文件都符合命名规范" +++ String LF "")).
    { intros H. apply TS in H. injection H as ->. discriminate. }
    assert (NF : ~ ends_with (output (fst r))
                   (String LF "错误: 发现不符合命名规范的文件" +++ String LF "")).
    { intros H. apply TF in H. injection H as ->. discriminate. }
    cbn [exit_status filter map].
    split; [|split].
    + split; [intros H; now elim NS | discriminate].
    + split; [intros H; now elim NF | intros [[l E] _]; discriminate].
    + intros H. now elim NF.
  - assert (NS : ~ ends_with (output (fst r))
                   (String LF "成功: 所有文件都符合命名规范" +++ String LF "")).
    { intros H. apply TS in H. injection H as ->. discriminate. }
    assert (NF : ~ ends_with (output (fst r))
                   (String LF "错误: 发现不符合命名规范的文件" +++ String LF "")).
    { intros H. apply TF in H. injection H as ->. discriminate. }
    cbn [exit_status filter map].
    split; [|split].
    + split; [intros H; now elim NS | discriminate].
    + split; [intros H; now elim NF | intros [[l E] _]; discriminate].
    + intros H. now elim NF.
  - rewrite run_script_directory in O. cbv zeta in O. cbn [fst stdout] in O.
    destruct (filter is_invalid l) as [|e l'] eqn:E;
      cbn [map exit_status] in *.
    + assert (NF : ~ ends_with (output (fst r))
                     (String LF "错误: 发现不符合命名规范的文件" +++ String LF "")).
      { intros H. apply TF in H. injection H as ->. discriminate. }
      split; [|split].
      * split; [reflexivity|]. intros _. cbn [verdict] in O.
        rewrite !app_assoc, written_last in O. rewrite O.
        eexists. reflexivity.
      * split; [intros H; now elim NF | intros [_ H]; now elim H].
      * intros H. now elim NF.
    + assert (NS : ~ ends_with (output (fst r))
                     (String LF "成功: 所有文件都符合命名规范" +++ String LF "")).
      { intros H. apply TS in H. injection H as ->. discriminate. }
      split; [|split].
      * split; [intros H; now elim NS | discriminate].
      * split.
        -- intros _. split; [now exists l | discriminate].
        -- intros _.
           rewrite verdict_cons, !app_assoc, written_last in O. rewrite O.
           eexists. reflexivity.
      * reflexivity.
  - assert (NS : ~ ends_with (output (fst r))
                   (String LF "成功: 所有文件都符合命名规范" +++ String LF "")).
    { intros H. apply TS in H. injection H as ->. discriminate. }
    assert (NF : ~ ends_with (output (fst r))
                   (String LF "错误: 发现不符合命名规范的文件" +++ String LF "")).
    { intros H. apply TF in H. injection H as ->. discriminate. }
    cbn [exit_status filter map].
    split; [|split].
    + split; [intros H; now elim NS | discriminate].
    + split; [intros H; now elim NF | intros [[l E] _]; discriminate].
    + intros H. now elim NF.
Qed.

(** X11: the report is complete: once the files whose names the run left
    in [invalid_files] are taken out of the directory, a run over what is
    left ends with status 0. *)
Theorem removing_reported_files_passes (d : string) (l : list dirent) :
  let reported := invalid_files (fst (run_script (World d (Directory l)))) in
  let kept := filter (fun e => d_is_dir e || negb (mem (d_name e) reported)) l in
  exit_status (snd (run_script (World d (Directory kept)))) = 0%Z /\
  invalid_files (fst (run_script (World d (Directory kept)))) = [].
Proof.
  intros reported kept.
  assert (K : filter is_invalid kept = []).
  { apply filter_nil_iff. intros e He.
    apply filter_In in He. destruct He as [He Hk].
    destruct (is_invalid e) eqn:I; [|reflexivity].
    assert (Hin : In (d_name e) reported).
    { unfold reported. rewrite run_script_directory. cbv zeta.
      cbn [fst invalid_files]. apply In_invalid_names. now exists e. }
    apply mem_In in Hin. rewrite Hin in Hk.
    apply is_invalid_is_file in I. unfold is_file in I.
    apply negb_true_iff in I. rewrite I in Hk. discriminate. }
  rewrite run_script_directory. cbv zeta.
  cbn [fst snd invalid_files]. rewrite K. split; reflexivity.
Qed.

(* ===================================================================== *)
(** * Properties of the docs path                                        *)
(* ===================================================================== *)

Module PosixPathFacts.
Import PosixPath.

Lemma has_sep_after_sep (x y : string) : has_sep (x +++ String sep y) = true.
Proof.
  unfold has_sep. rewrite all_chars_app. simpl.
  now rewrite andb_false_r.
Qed.

Lemma through_last_sep_spec (x y : string) :
  has_sep y = false ->
  through_last_sep (x +++ String sep y) = x +++ String sep "".
Proof.
  intros Hy. induction x as [|c x IH]; simpl.
  - now rewrite Hy.
  - now rewrite has_sep_after_sep, IH.
Qed.

Lemma through_last_sep_none (y : string) :
  has_sep y = false -> through_last_sep y = "".
Proof.
  unfold has_sep. intros H. apply negb_false_iff in H.
  induction y as [|c y IH]; simpl; [reflexivity|].
  simpl in H. apply andb_true_iff in H. destruct H as [Hc Hy].
  unfold has_sep. rewrite Hy. simpl.
  apply negb_true_iff in Hc. now rewrite Hc.
Qed.

Lemma ends_with_sep_cons (c : ascii) (x : string) :
  x <> "" -> ends_with_sep (String c x) = ends_with_sep x.
Proof.
  intros N. unfold ends_with_sep. simpl. destruct x; [congruence | reflexivity].
Qed.

Lemma rstrip_one_sep (x : string) :
  ends_with_sep x = false -> rstrip (x +++ String sep "") = x.
Proof.
  induction x as [|c x IH]; intros H; [reflexivity|].
  destruct x as [|c' x].
  - unfold ends_with_sep in H. simpl in H. simpl. now rewrite H.
  - rewrite ends_with_sep_cons in H by discriminate.
    change (rstrip (String c (String c' x) +++ String sep ""))
      with (match rstrip (String c' x +++ String sep "") with
            | EmptyString => if Ascii.eqb c sep then EmptyString
                             else String c EmptyString
            | String _ _ as t' => String c t'
            end).
    now rewrite (IH H).
Qed.

Lemma not_all_sep (x : string) :
  x <> "" -> ends_with_sep x = false -> all_chars (Ascii.eqb sep) x = false.
Proof.
  induction x as [|c x IH]; intros N H; [congruence|].
  destruct x as [|c' x].
  - unfold ends_with_sep in H. cbn [last_char] in H.
    change (all_chars (Ascii.eqb sep) (String c ""))
      with (Ascii.eqb sep c && true).
    rewrite Ascii.eqb_sym, H. reflexivity.
  - rewrite ends_with_sep_cons in H by discriminate.
    change (all_chars (Ascii.eqb sep) (String c (String c' x)))
      with (Ascii.eqb sep c && all_chars (Ascii.eqb sep) (String c' x)).
    rewrite IH by (trivial; discriminate). apply andb_false_r.
Qed.

Lemma no_sep_ends (y : string) : has_sep y = false -> ends_with_sep y = false.
Proof.
  unfold has_sep. intros H. apply negb_false_iff in H.
  induction y as [|c y IH]; [reflexivity|].
  simpl in H. apply andb_true_iff in H. destruct H as [Hc Hy].
  destruct y as [|c' y].
  - unfold ends_with_sep. simpl. now apply negb_true_iff in Hc.
  - rewrite ends_with_sep_cons by discriminate. now apply IH.
Qed.

Lemma ends_with_sep_append (x y : string) :
  y <> "" -> ends_with_sep (x +++ y) = ends_with_sep y.
Proof.
  intros N. unfold ends_with_sep. now rewrite last_char_append.
Qed.

Lemma append_eq_nil (x y : string) : x +++ y = "" -> y = "".
Proof. destruct x; simpl; [trivial | discriminate]. Qed.

(** [dirname] of a path [x/y] whose last component [y] has no separator,
    when [x] is not empty and does not end with a separator. *)
Lemma dirname_parent (x y : string) :
  x <> "" -> ends_with_sep x = false -> has_sep y = false ->
  dirname (x +++ String sep y) = x.
Proof.
  intros N E Hy. unfold dirname. rewrite (through_last_sep_spec x y Hy).
  assert (H1 : String.eqb (x +++ String sep "") "" = false).
  { apply String.eqb_neq. intros H. apply append_eq_nil in H. discriminate. }
  rewrite H1, all_chars_app, (not_all_sep x N E). simpl.
  now apply rstrip_one_sep.
Qed.

(** [dirname] of [/y] is the root. *)
Lemma dirname_top (y : string) :
  has_sep y = false -> dirname (String sep y) = String sep "".
Proof.
  intros Hy. unfold dirname.
  pose proof (through_last_sep_spec "" y Hy) as T.
  cbn [String.append] in T. rewrite T. reflexivity.
Qed.

End PosixPathFacts.

(** X12: the docs directory is the sibling [docs] of the directory that
    holds the script: for a script at [root/dir/file], where [dir] and
    [file] are single components and [root] is empty or does not end with a
    separator, [docs_dir] is [root/docs]. *)
Theorem docs_dir_beside_script_directory (root dir file : string) :
  PosixPath.ends_with_sep root = false ->
  dir <> "" ->
  PosixPath.has_sep dir = false ->
  PosixPath.has_sep file = false ->
  docs_dir_of (root +++ "/" +++ dir +++ "/" +++ file) = root +++ "/docs".
Proof.
  intros Er Nd Hd Hf. unfold docs_dir_of.
  assert (P : root +++ "/" +++ dir +++ "/" +++ file
              = (root +++ String PosixPath.sep dir)
                +++ String PosixPath.sep file).
  { rewrite append_assoc. reflexivity. }
  rewrite P. clear P.
  assert (E1 : PosixPath.ends_with_sep (root +++ String PosixPath.sep dir) = false).
  { change (String PosixPath.sep dir) with (String PosixPath.sep "" +++ dir).
    rewrite <- append_assoc, PosixPathFacts.ends_with_sep_append by exact Nd.
    now apply PosixPathFacts.no_sep_ends. }
  rewrite PosixPathFacts.dirname_parent; trivial.
  2:{ intros H. apply PosixPathFacts.append_eq_nil in H. discriminate. }
  destruct root as [|c root].
  - simpl (EmptyString +++ _). rewrite PosixPathFacts.dirname_top by exact Hd.
    reflexivity.
  - rewrite PosixPathFacts.dirname_parent; trivial; [|discriminate].
    unfold PosixPath.join. cbn [PosixPath.starts_with_sep].
    change (Ascii.eqb "d" PosixPath.sep) with false. cbv iota.
    rewrite Er, orb_false_r.
    replace (String.eqb (String c root) "") with false by reflexivity.
    reflexivity.
Qed.

Lemma docs_dir_beside_script_directory_witness :
  docs_dir_of "/home/dev/project/scripts/validate_docs_naming.py"
  = "/home/dev/project/docs".
Proof.
  exact (docs_dir_beside_script_directory
           "/home/dev/project" "scripts" "validate_docs_naming.py"
           eq_refl (fun H => match H with eq_refl => I end) eq_refl eq_refl).
Defined.

(** X13: for a script that lies in the root directory, [/file], the two
    [dirname] steps stay at the root and [docs_dir] is [/docs]. *)
Theorem docs_dir_of_script_in_root (file : string) :
  PosixPath.has_sep file = false ->
  docs_dir_of ("/" +++ file) = "/docs".
Proof.
  intros Hf. unfold docs_dir_of.
  change ("/" +++ file) with (String PosixPath.sep file).
  rewrite PosixPathFacts.dirname_top by exact Hf.
  reflexivity.
Qed.

Lemma docs_dir_of_script_in_root_witness :
  docs_dir_of "/validate_docs_naming.py" = "/docs".
Proof.
  exact (docs_dir_of_script_in_root "validate_docs_naming.py" eq_refl).
Defined.

(** X14: a docs directory that holds no file (it is empty, or holds only
    directories) passes: nothing is printed for any child, the three counts
    are zero, the success line is printed and the run ends through
    [sys.exit(0)]. *)
Theorem directory_without_files_passes (d : string) (l : list dirent) :
  forallb d_is_dir l = true ->
  run_script (World d (Directory l))
  = (State ["开始验证文档文件名规范..."; "文档目录: " +++ d;
            "验证模式: " +++ pattern;
            String LF "验证结果:";
            "总文件数: 0"; "有效文件数: 0"; "无效文件数: 0";
            String LF "成功: 所有文件都符合命名规范"] 0 0 [],
     inl (SystemExit 0)).
Proof.
  intros H.
  assert (F : filter is_file l = []).
  { apply filter_nil_iff. intros e He.
    rewrite forallb_forall in H. unfold is_file. now rewrite (H e He). }
  rewrite directories_are_ignored_state, F. reflexivity.
Qed.

Lemma directory_without_files_passes_witness :
  exit_status
    (snd (run_script (World "/repo/docs"
            (Directory [Dirent "images" true; Dirent "drafts" true]))))
  = 0%Z.
Proof.
  exact (f_equal (fun r => exit_status (snd r))
           (directory_without_files_passes "/repo/docs"
              [Dirent "images" true; Dirent "drafts" true] eq_refl)).
Defined.
